(** * minitorch/module.py: the module and parameter registry

    A shallow embedding of the classes [Module] and [Parameter] of
    [minitorch/module.py], and the properties of the module tree: routing of
    attribute assignment and lookup, enumeration of the parameters by dotted
    path, and propagation of the training mode.

    - Python objects are mutable and are reached through references.  The
      modules reachable from one module form a tree (a child is owned by its
      parent, and there is no cycle), so a module is embedded as the tree
      below it, and a method that mutates [self] as a function returning the
      tree afterwards.  A node of a tree is named by the path of child names
      leading to it, and a method called on a node rewrites the subtree at
      that path ([call_at]).
    - A method call [self.m(...)] is the call of the method [m] of the
      class; a plain field that rebinds the name of a method is not
      modelled.  Reading a data attribute follows Python's lookup order
      ([getattr]).
    - [Parameter] and [Variable] are keywords here: the class [Parameter] is
      the record [Parameter_], and the value of the autograd layer is
      [Tracked]. *)

From Stdlib Require Import String Ascii List ZArith Bool Arith Lia.
Import ListNotations.

#[local] Set Warnings "-register-all".
#[local] Open Scope string_scope.
#[local] Open Scope list_scope.

(** ** Python dicts

    A [dict] keeps its entries in insertion order and binding a key that is
    already there keeps the position of that key, so a dict is embedded as
    the list of its items, in order.  The items of a dict have pairwise
    distinct keys ([dict_wf]); every operation below keeps that. *)

Definition dict (A : Type) : Type := list (string * A).

Section Dict.
Context {A : Type}.

Definition items (d : dict A) : list (string * A) := d.
Definition keys (d : dict A) : list string := map fst d.

Definition dict_wf (d : dict A) : Prop := NoDup (keys d).

(** [d[k]], [None] for the KeyError. *)
Fixpoint dict_get (k : string) (d : dict A) : option A :=
  match d with
  | [] => None
  | (k', v) :: d' => if String.eqb k k' then Some v else dict_get k d'
  end.

(** [k in d] *)
Definition dict_mem (k : string) (d : dict A) : bool :=
  match dict_get k d with Some _ => true | None => false end.

(** [d[k] = v] *)
Fixpoint dict_set (k : string) (v : A) (d : dict A) : dict A :=
  match d with
  | [] => [(k, v)]
  | (k', v') :: d' =>
      if String.eqb k k' then (k', v) :: d' else (k', v') :: dict_set k v d'
  end.

(** [d.update(other)]: the items of [other] are bound in [d] one after the
    other. *)
Definition dict_update (d other : dict A) : dict A :=
  fold_left (fun acc kv => dict_set (fst kv) (snd kv) acc) other d.

(** [dict(its)] and the dict comprehension [{k: v for ...}]: a new dict
    filled with the items in order. *)
Definition dict_of (its : list (string * A)) : dict A := dict_update [] its.

(** The dict without its entries under [k] (used in statements only). *)
Definition dict_remove (k : string) (d : dict A) : dict A :=
  filter (fun kv => negb (String.eqb k (fst kv))) d.

(** The binding of [k] that comes last in a list of items. *)
Fixpoint last_binding (k : string) (its : list (string * A)) : option A :=
  match its with
  | [] => None
  | (k', v) :: rest =>
      match last_binding k rest with
      | Some w => Some w
      | None => if String.eqb k k' then Some v else None
      end
  end.
End Dict.

(** ** Values held by a parameter *)

(** Modelled from the spec: the differentiable value of the autograd layer
    (its class is not in [module.py]).  It exposes the gradient-tracking toggle
    [requires_grad_] and a settable field [name]; [payload] stands for the
    rest of its state. *)
Record Tracked : Type := mkTracked {
  payload : Z;
  requires_grad : bool;
  tracked_name : string
}.

(** [x.requires_grad_(flag)] *)
Definition requires_grad_ (flag : bool) (x : Tracked) : Tracked :=
  mkTracked (payload x) flag (tracked_name x).

(** [x.name = s] *)
Definition set_name (s : string) (x : Tracked) : Tracked :=
  mkTracked (payload x) (requires_grad x) s.

(** The values of the model: plain Python values, which have no attribute
    [requires_grad_], and tracked values, which have it. *)
Inductive Value : Type :=
| VNone
| VBool (b : bool)
| VInt (z : Z)
| VStr (s : string)
| VTracked (t : Tracked).

(** [hasattr(x, "requires_grad_")] *)
Definition hasattr_requires_grad_ (x : Value) : bool :=
  match x with VTracked _ => true | _ => false end.

(** Truth value of [self.name] in [if self.name:]: [None] and the empty
    string are false. *)
Definition truthy (name : option string) : bool :=
  match name with
  | Some s => negb (String.eqb s "")
  | None => false
  end.

(** ** class Parameter *)

Record Parameter_ : Type := mkParameter {
  value : Value;
  name : option string
}.

(** [Parameter.__init__(self, x=None, name=None)] *)
Definition Parameter_init (x : Value) (name : option string) : Parameter_ :=
  match x with
  | VTracked t =>
      let t := requires_grad_ true t in
      let t := match name with
               | Some s => if truthy name then set_name s t else t
               | None => t
               end in
      mkParameter (VTracked t) name
  | _ => mkParameter x name
  end.

(** [Parameter.update(self, x)] *)
Definition update (self : Parameter_) (x : Value) : Parameter_ :=
  match x with
  | VTracked t =>
      let t := requires_grad_ true t in
      let t := match name self with
               | Some s => if truthy (name self) then set_name s t else t
               | None => t
               end in
      mkParameter (VTracked t) (name self)
  | _ => mkParameter x (name self)
  end.

(** ** class Module *)

(** The instance [__dict__] of a module: its entries [_modules] and
    [_parameters], and [fields], the other entries in insertion order
    ([training] among them). *)
Inductive Module : Type := mkModule {
  _modules : dict Module;
  _parameters : dict Parameter_;
  fields : dict Value
}.

(** A node of a module tree: the child names from the root down to it. *)
Definition path : Type := list string.

(** What an attribute assignment can store. *)
Inductive Obj : Type :=
| OValue (v : Value)
| OParameter (p : Parameter_)
| OModule (m : Module).

Inductive exn : Type :=
| AssertionError (msg : string)
| TypeError
| AttributeError.

Inductive result (A : Type) : Type :=
| Ok (a : A)
| Raise (e : exn).
Arguments Ok {A} a.
Arguments Raise {A} e.

(** [Module.__init__] *)
Definition Module_init : Module :=
  mkModule [] [] [("training", VBool true)].


(** [object.__setattr__(self, key, v)]: binds [key] in the instance
    [__dict__]. *)
Definition object_setattr (self : Module) (key : string) (v : Value) : Module :=
  mkModule (_modules self) (_parameters self) (dict_set key v (fields self)).

(** Names whose plain assignment does not add a field: the two storage dicts
    themselves, and the data descriptors that every instance inherits. *)
Definition special_names : list string :=
  ["_modules"; "_parameters"; "__dict__"; "__class__"; "__weakref__"].

Definition special (key : string) : bool :=
  existsb (String.eqb key) special_names.

(** [Module.__setattr__(self, key, val)].  [None] is not a failure of the
    code: it marks the one assignment that leaves the model, a plain value
    bound to a special name (which would replace a storage dict by a value
    that is no dict). *)
Definition __setattr__ (self : Module) (key : string) (val : Obj) : option Module :=
  match val with
  | OParameter p =>
      Some (mkModule (_modules self) (dict_set key p (_parameters self)) (fields self))
  | OModule m =>
      Some (mkModule (dict_set key m (_modules self)) (_parameters self) (fields self))
  | OValue v =>
      if special key then None else Some (object_setattr self key v)
  end.

(** [Module.__getattr__(self, key)]: the function falls off its end when
    [key] is in neither dict, which returns [None]. *)
Definition __getattr__ (self : Module) (key : string) : result Obj :=
  match dict_get key (_parameters self) with
  | Some p => Ok (OParameter p)
  | None =>
      match dict_get key (_modules self) with
      | Some m => Ok (OModule m)
      | None => Ok (OValue VNone)
      end
  end.

(** [Module.add_parameter(self, k, v)]: the module afterwards and the
    returned parameter. *)
Definition add_parameter (self : Module) (k : string) (v : Value)
  : Module * Parameter_ :=
  let val := Parameter_init v (Some k) in
  (mkModule (_modules self) (dict_set k val (_parameters self)) (fields self), val).

(** [Module.train(self)]: the tree afterwards, and the nodes in the order in
    which their [training] was assigned (paths relative to [self]). *)
Fixpoint train (self : Module) : Module * list path :=
  match self with
  | mkModule mods params flds =>
      let flds := dict_set "training" (VBool true) flds in
      let loop :=
        fix loop (ms : dict Module) : dict Module * list path :=
          match ms with
          | [] => ([], [])
          | (k, module) :: rest =>
              let (module', visited) := train module in
              let (rest', visited') := loop rest in
              ((k, module') :: rest', map (cons k) visited ++ visited')
          end in
      let (mods', visited) := loop mods in
      (mkModule mods' params flds, [] :: visited)
  end.

(** [Module.eval(self)] *)
Fixpoint eval (self : Module) : Module * list path :=
  match self with
  | mkModule mods params flds =>
      let flds := dict_set "training" (VBool false) flds in
      let loop :=
        fix loop (ms : dict Module) : dict Module * list path :=
          match ms with
          | [] => ([], [])
          | (k, module) :: rest =>
              let (module', visited) := eval module in
              let (rest', visited') := loop rest in
              ((k, module') :: rest', map (cons k) visited ++ visited')
          end in
      let (mods', visited) := loop mods in
      (mkModule mods' params flds, [] :: visited)
  end.

(** [f"{child}.{key}"] *)
Definition dotted (child key : string) : string := child ++ "." ++ key.

(** [Module._named_parameters(self)].  The loop runs over the keys of
    [children] and reads [children[child]], which is the item itself. *)
Fixpoint _named_parameters (self : Module) : dict Parameter_ :=
  match self with
  | mkModule children params _ =>
      let my_parameters := dict_of (items params) in
      (fix loop (cs : dict Module) (my_parameters : dict Parameter_)
         : dict Parameter_ :=
         match cs with
         | [] => my_parameters
         | (child, m) :: rest =>
             let child_params := _named_parameters m in
             let child_params :=
               dict_of (map (fun kv => (dotted child (fst kv), snd kv))
                            (items child_params)) in
             loop rest (dict_update my_parameters child_params)
         end) children my_parameters
  end.

(** [Module.named_parameters(self)] *)
Definition named_parameters (self : Module) : list (string * Parameter_) :=
  items (_named_parameters self).

(** [Module.parameters(self)] *)
Definition parameters (self : Module) : list Parameter_ :=
  map (fun kv => snd kv) (named_parameters self).

(** [Module.forward(self)]: the signature takes no argument besides [self],
    so a call with arguments fails when they are bound, before the body. *)
Definition forward (self : Module) (args : list Value) (kwargs : dict Value)
  : result Value :=
  match args, kwargs with
  | [], [] => Raise (AssertionError "Not Implemented")
  | _, _ => Raise TypeError
  end.

(** A class derived from [Module] may override [forward].  [Base] is the
    class [Module] itself. *)
Class ModuleClass : Type := {
  forward_override :
    option (Module -> list Value -> dict Value -> result Value)
}.

#[local] Instance Base : ModuleClass := {| forward_override := None |}.

(** The call of [self.forward] with the arguments of [__call__]: the method
    of the class of [self], which is the override when there is one. *)
Definition call_forward {C : ModuleClass} (self : Module)
    (args : list Value) (kwargs : dict Value) : result Value :=
  match forward_override with
  | Some f => f self args kwargs
  | None => forward self args kwargs
  end.

(** [Module.__call__], given the positional and the keyword arguments. *)
Definition __call__ {C : ModuleClass} (self : Module)
    (args : list Value) (kwargs : dict Value) : result Value :=
  call_forward self args kwargs.

(** The names that the body of [class Module] binds. *)
Definition Module_methods : list string :=
  ["__init__"; "modules"; "train"; "eval"; "_named_parameters";
   "named_parameters"; "parameters"; "add_parameter"; "__setattr__";
   "__getattr__"; "__call__"; "forward"; "__repr__"].

(** What reading an attribute yields. *)
Inductive Attr : Type :=
| AObj (o : Obj)
| AModules (d : dict Module)
| AParameters (d : dict Parameter_)
| AClass (key : string).

Section AttributeLookup.
(** The names that Python finds on the built-in class [object] (they are no
    part of [module.py] and vary with the interpreter). *)
Variable object_attr : string -> bool.

Definition class_attr (key : string) : bool :=
  existsb (String.eqb key) Module_methods || object_attr key.

(** [key] is found by the default lookup: in the instance [__dict__] or on
    the class. *)
Definition found_by_default (self : Module) (key : string) : bool :=
  special key || dict_mem key (fields self) || class_attr key.

(** Reading [self.key]: the default lookup, and [__getattr__] only when
    that finds nothing. *)
Definition getattr (self : Module) (key : string) : result Attr :=
  if String.eqb key "_modules" then Ok (AModules (_modules self))
  else if String.eqb key "_parameters" then Ok (AParameters (_parameters self))
  else if special key then Ok (AClass key)
  else
    match dict_get key (fields self) with
    | Some v => Ok (AObj (OValue v))
    | None =>
        if class_attr key then Ok (AClass key)
        else
          match __getattr__ self key with
          | Ok o => Ok (AObj o)
          | Raise e => Raise e
          end
    end.
End AttributeLookup.

(** The attributes of [object] in CPython 3. *)
Definition object_attrs : list string :=
  ["__class__"; "__delattr__"; "__dict__"; "__dir__"; "__doc__"; "__eq__";
   "__format__"; "__ge__"; "__getattribute__"; "__getstate__"; "__gt__";
   "__hash__"; "__init__"; "__init_subclass__"; "__le__"; "__lt__";
   "__module__"; "__ne__"; "__new__"; "__reduce__"; "__reduce_ex__";
   "__repr__"; "__setattr__"; "__sizeof__"; "__str__"; "__subclasshook__";
   "__weakref__"].

Definition cpython_attr (key : string) : bool :=
  existsb (String.eqb key) object_attrs.

(** ** Vocabulary of the statements *)

(** The node reached from [root] along [p]. *)
Fixpoint at_path (root : Module) (p : path) : option Module :=
  match p with
  | [] => Some root
  | k :: q =>
      match dict_get k (_modules root) with
      | Some c => at_path c q
      | None => None
      end
  end.

(** Calling a method [f] on the node at [p]: the node is mutated in place,
    which the root sees as that subtree replaced. *)
Fixpoint call_at (f : Module -> Module) (p : path) (root : Module)
  : option Module :=
  match p with
  | [] => Some (f root)
  | k :: q =>
      match dict_get k (_modules root) with
      | Some c =>
          match call_at f q c with
          | Some c' =>
              Some (mkModule (dict_set k c' (_modules root))
                             (_parameters root) (fields root))
          | None => None
          end
      | None => None
      end
  end.

(** The training flag of a module. *)
Definition training (self : Module) : option Value :=
  dict_get "training" (fields self).

Fixpoint is_prefix (p q : path) : bool :=
  match p, q with
  | [], _ => true
  | k :: p', k' :: q' => String.eqb k k' && is_prefix p' q'
  | _ :: _, [] => false
  end.

(** Pre-order of a tree: the node itself, then the subtree of each child,
    children in insertion order. *)
Fixpoint preorder (self : Module) : list path :=
  match self with
  | mkModule mods _ _ =>
      [] :: flat_map (fun kc => match kc with
                                | (k, c) => map (cons k) (preorder c)
                                end) mods
  end.

(** The tree with the flag [training] of every module set to [b]. *)
Fixpoint set_mode (b : bool) (self : Module) : Module :=
  match self with
  | mkModule mods params flds =>
      mkModule (map (fun kc => match kc with (k, c) => (k, set_mode b c) end) mods)
               params (dict_set "training" (VBool b) flds)
  end.

(** The tree without the entry [training] of any module. *)
Fixpoint forget (self : Module) : Module :=
  match self with
  | mkModule mods params flds =>
      mkModule (map (fun kc => match kc with (k, c) => (k, forget c) end) mods)
               params (dict_remove "training" flds)
  end.

(** The parameters owned by a module and by its descendants, each with the
    chain of child names down to its owner followed by its local name: the
    module's own first, then each child's, children in insertion order. *)
Fixpoint owned (self : Module) : list (list string * Parameter_) :=
  match self with
  | mkModule mods params _ =>
      map (fun kv => ([fst kv], snd kv)) params
      ++ flat_map (fun kc => match kc with
                             | (c, m) => map (fun np => (c :: fst np, snd np)) (owned m)
                             end) mods
  end.

(** The enumeration as the specification words it: every owned parameter
    under its chain of names joined by a dot. *)
Definition named_parameters_spec (self : Module) : list (string * Parameter_) :=
  map (fun np => (String.concat "." (fst np), snd np)) (owned self).

(** How many of the three storage classes hold the name [k]. *)
Definition holders (self : Module) (k : string) : nat :=
  (if dict_mem k (_parameters self) then 1 else 0)
  + (if dict_mem k (_modules self) then 1 else 0)
  + (if dict_mem k (fields self) then 1 else 0).

(** A child's items under that child's name. *)
Definition prefixed (child : string) (its : list (string * Parameter_))
  : list (string * Parameter_) :=
  map (fun kv => (dotted child (fst kv), snd kv)) its.

(** At most one storage class holds the name [k]. *)
Definition exclusive (self : Module) (k : string) : Prop := holders self k <= 1.

(** A module with a child [x], and the same module after a parameter was
    assigned to [x] as well. *)
Definition with_child_x : Module :=
  mkModule [("x", Module_init)] [] [("training", VBool true)].

Definition one : Parameter_ := Parameter_init (VInt 1) None.

Definition with_child_and_parameter_x : Module :=
  mkModule [("x", Module_init)] [("x", one)] [("training", VBool true)].

(** The tree of the specification's example: a root owning [p], whose child
    [a] owns [p2]. *)
Definition child_a : Module := fst (add_parameter Module_init "p2" (VInt 10)).

Definition root_p_a : Module :=
  mkModule [("a", child_a)] (_parameters (fst (add_parameter Module_init "p" (VInt 5))))
           [("training", VBool true)].

(** The same child under a root whose own parameter is named [a.p2]. *)
Definition root_colliding : Module :=
  mkModule [("a", child_a)]
           (_parameters (fst (add_parameter Module_init "a.p2" (VInt 1))))
           [("training", VBool true)].

(** The method [run] called on the node [N] at [p] sets the flag of [N] and of
    every node below it to [b]. *)
Definition sets_mode_below (run : Module -> Module * list path) (b : bool)
    (root : Module) (p : path) (N : Module) : Prop :=
  exists root',
    call_at (fun m => fst (run m)) p root = Some root'
    /\ forall q D, at_path N q = Some D ->
         exists D', at_path root' (p ++ q) = Some D'
                    /\ training D' = Some (VBool b).

(** The method [run] called on the node at [p] changes nothing but training
    flags, and those of the nodes at or below [p] only: every node is still
    there with its parameter mapping, the names of its children and its other
    fields, and no node is added. *)
Definition changes_training_only (run : Module -> Module * list path)
    (root : Module) (p : path) : Prop :=
  exists root',
    call_at (fun m => fst (run m)) p root = Some root'
    /\ forget root' = forget root
    /\ (forall q M, at_path root q = Some M ->
          exists M', at_path root' q = Some M'
            /\ _parameters M' = _parameters M
            /\ keys (_modules M') = keys (_modules M)
            /\ dict_remove "training" (fields M')
               = dict_remove "training" (fields M)
            /\ (is_prefix p q = false -> fields M' = fields M))
    /\ (forall q M', at_path root' q = Some M' ->
          exists M, at_path root q = Some M).

(** ** Text representation *)

(** The newline character and the string [\n]. *)
Definition nl_char : ascii := ascii_of_nat 10.
Definition nl : string := String nl_char EmptyString.

(** [s.split(sep)] for a separator of one character: the pieces between the
    separators, in order; the list is never empty. *)
Fixpoint split (sep : ascii) (s : string) : list string :=
  match s with
  | EmptyString => [EmptyString]
  | String c s' =>
      if Ascii.eqb c sep then EmptyString :: split sep s'
      else
        match split sep s' with
        | piece :: pieces => String c piece :: pieces
        | [] => [String c EmptyString]
        end
  end.

(** [c in s] *)
Fixpoint contains (c : ascii) (s : string) : bool :=
  match s with
  | EmptyString => false
  | String c' s' => Ascii.eqb c' c || contains c s'
  end.

(** [n * " "] *)
Fixpoint spaces (n : nat) : string :=
  match n with
  | O => EmptyString
  | S n' => String " " (spaces n')
  end.

(** [_addindent(s_, numSpaces)], the helper of [Module.__repr__]. *)
Definition _addindent (s_ : string) (numSpaces : nat) : string :=
  let s := split nl_char s_ in
  if Nat.eqb (length s) 1 then s_
  else
    match s with
    | first :: s =>
        let s := map (fun line => (spaces numSpaces ++ line)%string) s in
        let s := String.concat nl s in
        (first ++ nl ++ s)%string
    | [] => s_
    end.

Section Repr.
(** [self.__class__.__name__]: the name of the class of the modules of the
    tree ([Module] for the class itself). *)
Variable class_name : string.

End Repr.

(** The lines of a text. *)
Definition text_lines (s : string) : list string := split nl_char s.



(** ** Well-formed trees and parameters *)

(** Every mapping of the tree is a dict: its keys are pairwise distinct. *)
Inductive Module_wf : Module -> Prop :=
| Module_wf_node (mods : dict Module) (params : dict Parameter_)
    (flds : dict Value) :
    dict_wf mods -> dict_wf params -> dict_wf flds ->
    Forall (fun kc => Module_wf (snd kc)) mods ->
    Module_wf (mkModule mods params flds).

(** The rule of the constructor holds of a parameter: a tracked value has its
    gradient flag set, and bears the name of the parameter when that name is
    present and not empty. *)
Definition Parameter_ok (p : Parameter_) : Prop :=
  match value p with
  | VTracked t =>
      requires_grad t = true
      /\ (truthy (name p) = true -> name p = Some (tracked_name t))
  | _ => True
  end.

(** ** Induction on module trees *)

Definition Module_tree_ind (P : Module -> Prop)
    (step : forall mods params flds,
        Forall (fun kc => P (snd kc)) mods -> P (mkModule mods params flds))
  : forall m, P m :=
  fix go (m : Module) : P m :=
    match m with
    | mkModule mods params flds =>
        step mods params flds
          ((fix all (l : dict Module) : Forall (fun kc => P (snd kc)) l :=
              match l with
              | [] => Forall_nil _
              | kc :: l' => Forall_cons kc (go (snd kc)) (all l')
              end) mods)
    end.

(** ** Facts about dicts *)

Section DictFacts.
Context {A : Type}.
Implicit Types (d other : dict A) (k : string) (v : A).

Lemma dict_get_set_eq k v d : dict_get k (dict_set k v d) = Some v.
Proof.
  induction d as [|[k' v'] d IH]; simpl.
  - now rewrite String.eqb_refl.
  - destruct (String.eqb_spec k k') as [->|Hne]; simpl.
    + now rewrite String.eqb_refl.
    + apply String.eqb_neq in Hne. now rewrite Hne.
Qed.

Lemma dict_get_set_ne k k' v d :
  k' <> k -> dict_get k' (dict_set k v d) = dict_get k' d.
Proof.
  intros Hne. induction d as [|[k0 v0] d IH]; simpl.
  - apply String.eqb_neq in Hne. now rewrite Hne.
  - destruct (String.eqb_spec k k0) as [->|Hk]; simpl.
    + apply String.eqb_neq in Hne. now rewrite Hne.
    + now rewrite IH.
Qed.

Lemma dict_get_None k d : dict_get k d = None <-> ~ In k (keys d).
Proof.
  induction d as [|[k' v'] d IH]; simpl.
  - tauto.
  - destruct (String.eqb_spec k k') as [->|Hne].
    + split; [discriminate | intros H; exfalso; apply H; now left].
    + rewrite IH. split.
      * intros H [E|E]; [now apply Hne | now apply H].
      * intros H E. apply H. now right.
Qed.

Lemma dict_get_In k v d : dict_get k d = Some v -> In (k, v) d.
Proof.
  induction d as [|[k' v'] d IH]; simpl; [discriminate|].
  destruct (String.eqb_spec k k') as [->|Hne].
  - intros [= ->]. now left.
  - intros H. right. now apply IH.
Qed.

Lemma dict_set_fresh k v d :
  dict_get k d = None -> dict_set k v d = d ++ [(k, v)].
Proof.
  induction d as [|[k' v'] d IH]; simpl; [reflexivity|].
  destruct (String.eqb_spec k k') as [->|Hne]; [discriminate|].
  intros H. now rewrite IH.
Qed.

Lemma keys_dict_set k v d :
  keys (dict_set k v d) = if dict_mem k d then keys d else keys d ++ [k].
Proof.
  unfold dict_mem. induction d as [|[k' v'] d IH]; simpl; [reflexivity|].
  destruct (String.eqb_spec k k') as [->|Hne]; simpl; [reflexivity|].
  rewrite IH. now destruct (dict_get k d).
Qed.

Lemma dict_wf_set k v d : dict_wf d -> dict_wf (dict_set k v d).
Proof.
  unfold dict_wf. intros Hd. rewrite keys_dict_set. unfold dict_mem.
  destruct (dict_get k d) eqn:E; [assumption|].
  apply dict_get_None in E.
  apply NoDup_app; [assumption | constructor; [intros [] | constructor] |].
  intros x Hx [<-|[]]. now apply E.
Qed.

Lemma dict_wf_update d other : dict_wf d -> dict_wf (dict_update d other).
Proof.
  unfold dict_update. revert d.
  induction other as [|[k v] other IH]; intros d Hd; simpl; [assumption|].
  apply IH. now apply dict_wf_set.
Qed.

Lemma dict_of_wf (its : list (string * A)) : dict_wf (dict_of its).
Proof. apply dict_wf_update. constructor. Qed.

Lemma dict_update_fresh d other :
  NoDup (keys d ++ keys other) -> dict_update d other = d ++ other.
Proof.
  unfold dict_update. revert d.
  induction other as [|[k v] other IH]; intros d Hnd; simpl.
  - now rewrite app_nil_r.
  - assert (Hk : dict_get k d = None).
    { apply dict_get_None. intros Hin.
      apply NoDup_remove_2 in Hnd. apply Hnd.
      apply in_or_app. now left. }
    rewrite (dict_set_fresh _ _ _ Hk), IH.
    + now rewrite <- app_assoc.
    + unfold keys in *. rewrite map_app. simpl. rewrite <- app_assoc. exact Hnd.
Qed.

Lemma dict_of_id (its : list (string * A)) :
  NoDup (keys its) -> dict_of its = its.
Proof. intros H. unfold dict_of. now rewrite dict_update_fresh. Qed.

Lemma last_binding_app k (a b : list (string * A)) :
  last_binding k (a ++ b) =
  match last_binding k b with
  | Some w => Some w
  | None => last_binding k a
  end.
Proof.
  induction a as [|[k' v'] a IH]; simpl.
  - now destruct (last_binding k b).
  - rewrite IH. now destruct (last_binding k b).
Qed.

Lemma last_binding_None k (its : list (string * A)) :
  last_binding k its = None <-> ~ In k (keys its).
Proof.
  induction its as [|[k' v'] its IH]; simpl; [tauto|].
  destruct (last_binding k its) eqn:E.
  - split; [discriminate|]. intros H. exfalso.
    assert (X : ~ In k (keys its)) by (intros Y; apply H; now right).
    apply IH in X. discriminate.
  - destruct (String.eqb_spec k k') as [->|Hne].
    + split; [discriminate | intros H; exfalso; apply H; now left].
    + split; [|reflexivity]. intros _ [X|X]; [now apply Hne|].
      revert X. now apply IH.
Qed.

(** The last write wins. *)
Lemma dict_get_update k d other :
  dict_get k (dict_update d other) =
  match last_binding k other with
  | Some w => Some w
  | None => dict_get k d
  end.
Proof.
  unfold dict_update. revert d.
  induction other as [|[k' v'] other IH]; intros d; simpl; [reflexivity|].
  rewrite IH. destruct (last_binding k other); [reflexivity|].
  destruct (String.eqb_spec k k') as [->|Hne].
  - apply dict_get_set_eq.
  - now apply dict_get_set_ne.
Qed.

Lemma dict_get_last_binding k d :
  dict_wf d -> dict_get k d = last_binding k d.
Proof.
  unfold dict_wf. induction d as [|[k' v'] d IH]; simpl; [reflexivity|].
  intros Hnd. inversion Hnd as [|? ? Hnotin Hnd']; subst.
  destruct (String.eqb_spec k k') as [->|Hne].
  - apply last_binding_None in Hnotin. now rewrite Hnotin.
  - rewrite IH by assumption. now destruct (last_binding k d).
Qed.

Lemma dict_remove_set k v d :
  dict_remove k (dict_set k v d) = dict_remove k d.
Proof.
  unfold dict_remove. induction d as [|[k' v'] d IH]; simpl.
  - now rewrite String.eqb_refl.
  - destruct (String.eqb_spec k k') as [->|Hne]; simpl.
    + now rewrite String.eqb_refl.
    + apply String.eqb_neq in Hne. rewrite Hne. simpl. now rewrite IH.
Qed.

Lemma dict_get_remove_ne k k' d :
  k' <> k -> dict_get k' (dict_remove k d) = dict_get k' d.
Proof.
  intros Hne. unfold dict_remove.
  induction d as [|[k0 v0] d IH]; simpl; [reflexivity|].
  destruct (String.eqb_spec k k0) as [->|Hk]; simpl.
  - apply String.eqb_neq in Hne. now rewrite Hne.
  - now rewrite IH.
Qed.
End DictFacts.

Lemma dict_get_map_values {A B : Type} (f : A -> B) (k : string) (d : dict A) :
  dict_get k (map (fun kc => match kc with (k', c) => (k', f c) end) d)
  = option_map f (dict_get k d).
Proof.
  induction d as [|[k' c] d IH]; simpl; [reflexivity|].
  now destruct (String.eqb k k').
Qed.

Lemma keys_map_values {A B : Type} (f : A -> B) (d : dict A) :
  keys (map (fun kc => match kc with (k', c) => (k', f c) end) d) = keys d.
Proof.
  unfold keys. rewrite map_map. apply map_ext. now intros [k c].
Qed.

(** ** Facts about the module tree *)

Lemma at_path_app (root : Module) (p q : path) :
  at_path root (p ++ q) =
  match at_path root p with
  | Some n => at_path n q
  | None => None
  end.
Proof.
  revert root. induction p as [|k p IH]; intros root; simpl; [reflexivity|].
  destruct (dict_get k (_modules root)); [apply IH | reflexivity].
Qed.

(** [train] and [eval] compute the tree with every flag set, and visit the
    nodes in pre-order. *)
Lemma train_spec (m : Module) : train m = (set_mode true m, preorder m).
Proof.
  induction m as [mods params flds IH] using Module_tree_ind. simpl.
  match goal with
  | |- (let (_, _) := ?loop mods in _) = _ =>
      assert (E : loop mods =
        (map (fun kc => match kc with (k, c) => (k, set_mode true c) end) mods,
         flat_map (fun kc => match kc with
                             | (k, c) => map (cons k) (preorder c)
                             end) mods))
  end.
  { induction IH as [|[k c] mods Hc _ IHmods]; simpl; [reflexivity|].
    simpl in Hc. now rewrite Hc, IHmods. }
  now rewrite E.
Qed.

Lemma eval_spec (m : Module) : eval m = (set_mode false m, preorder m).
Proof.
  induction m as [mods params flds IH] using Module_tree_ind. simpl.
  match goal with
  | |- (let (_, _) := ?loop mods in _) = _ =>
      assert (E : loop mods =
        (map (fun kc => match kc with (k, c) => (k, set_mode false c) end) mods,
         flat_map (fun kc => match kc with
                             | (k, c) => map (cons k) (preorder c)
                             end) mods))
  end.
  { induction IH as [|[k c] mods Hc _ IHmods]; simpl; [reflexivity|].
    simpl in Hc. now rewrite Hc, IHmods. }
  now rewrite E.
Qed.

Lemma training_set_mode (b : bool) (m : Module) :
  training (set_mode b m) = Some (VBool b).
Proof. destruct m. unfold training. simpl. apply dict_get_set_eq. Qed.

Lemma at_path_set_mode (b : bool) (m : Module) (q : path) :
  at_path (set_mode b m) q = option_map (set_mode b) (at_path m q).
Proof.
  revert m. induction q as [|k q IH]; intros [mods params flds]; simpl.
  - reflexivity.
  - rewrite dict_get_map_values.
    destruct (dict_get k mods) as [c|]; simpl; [apply IH | reflexivity].
Qed.

Lemma at_path_forget (m : Module) (q : path) :
  at_path (forget m) q = option_map forget (at_path m q).
Proof.
  revert m. induction q as [|k q IH]; intros [mods params flds]; simpl.
  - reflexivity.
  - rewrite dict_get_map_values.
    destruct (dict_get k mods) as [c|]; simpl; [apply IH | reflexivity].
Qed.

Lemma in_preorder (m : Module) (q : path) (D : Module) :
  at_path m q = Some D -> In q (preorder m).
Proof.
  revert m. induction q as [|k q IH]; intros [mods params flds]; simpl.
  - intros _. now left.
  - destruct (dict_get k mods) as [c|] eqn:E; [|discriminate].
    intros H. right. apply in_flat_map.
    exists (k, c). split; [now apply dict_get_In|].
    apply in_map. now apply IH.
Qed.

Lemma forget_set_mode (b : bool) (m : Module) : forget (set_mode b m) = forget m.
Proof.
  induction m as [mods params flds IH] using Module_tree_ind. simpl.
  rewrite dict_remove_set. f_equal.
  rewrite map_map.
  induction IH as [|[k c] mods Hc _ IHmods]; simpl; [reflexivity|].
  simpl in Hc. now rewrite Hc, IHmods.
Qed.

Lemma forget_fields (a b : Module) :
  forget a = forget b ->
  _parameters a = _parameters b
  /\ keys (_modules a) = keys (_modules b)
  /\ dict_remove "training" (fields a) = dict_remove "training" (fields b).
Proof.
  destruct a as [ma pa fa], b as [mb pb fb]. simpl.
  intros [= Hm Hp Hf]. repeat split; try assumption.
  rewrite <- (keys_map_values forget ma), <- (keys_map_values forget mb).
  now rewrite Hm.
Qed.

Lemma forget_dict_set (k : string) (c c' : Module) (mods : dict Module) :
  dict_get k mods = Some c -> forget c' = forget c ->
  map (fun kc => match kc with (k', m) => (k', forget m) end) (dict_set k c' mods)
  = map (fun kc => match kc with (k', m) => (k', forget m) end) mods.
Proof.
  intros Hget Hc. induction mods as [|[k0 c0] mods IH]; simpl in *; [discriminate|].
  destruct (String.eqb_spec k k0) as [->|Hne]; simpl.
  - injection Hget as ->. now rewrite Hc.
  - now rewrite IH.
Qed.

Section CallAt.
Variable f : Module -> Module.

Lemma call_at_defined (root : Module) (p : path) (N : Module) :
  at_path root p = Some N ->
  exists root', call_at f p root = Some root'
    /\ forall q, at_path root' (p ++ q) = at_path (f N) q.
Proof.
  revert root. induction p as [|k p IH]; intros root; simpl.
  - intros [= ->]. now exists (f N).
  - destruct (dict_get k (_modules root)) as [c|] eqn:E; [|discriminate].
    intros H. destruct (IH c H) as (c' & -> & Hq).
    eexists. split; [reflexivity|]. intros q. simpl.
    now rewrite dict_get_set_eq.
Qed.

Lemma call_at_forget (root root' : Module) (p : path) :
  (forall m, forget (f m) = forget m) ->
  call_at f p root = Some root' -> forget root' = forget root.
Proof.
  intros Hf. revert root root'.
  induction p as [|k p IH]; intros [mods params flds] root'; simpl.
  - intros [= <-]. apply Hf.
  - destruct (dict_get k mods) as [c|] eqn:E; [|discriminate].
    destruct (call_at f p c) as [c'|] eqn:Ec; [|discriminate].
    intros [= <-]. simpl. f_equal.
    apply (forget_dict_set k c c' mods E). now apply IH.
Qed.

(** A node that is not below the node of the call keeps its fields, its
    parameters and the names of its children. *)
Lemma call_at_outside (root root' : Module) (p q : path) (M : Module) :
  call_at f p root = Some root' ->
  is_prefix p q = false ->
  at_path root q = Some M ->
  exists M', at_path root' q = Some M'
    /\ fields M' = fields M
    /\ _parameters M' = _parameters M
    /\ keys (_modules M') = keys (_modules M).
Proof.
  revert root root' q.
  induction p as [|k p IH]; intros root root' q; simpl; [discriminate|].
  destruct (dict_get k (_modules root)) as [c|] eqn:E; [|discriminate].
  destruct (call_at f p c) as [c'|] eqn:Ec; [|discriminate].
  intros [= <-]. destruct q as [|k' q]; simpl.
  - intros _ [= <-]. eexists. split; [reflexivity|]. simpl.
    repeat split. rewrite keys_dict_set. unfold dict_mem. now rewrite E.
  - destruct (String.eqb_spec k k') as [<-|Hne]; simpl.
    + rewrite dict_get_set_eq, E. intros Hpre HM.
      exact (IH c c' q Ec Hpre HM).
    + intros _. rewrite dict_get_set_ne by (intros X; now apply Hne).
      intros HM. now exists M.
Qed.
End CallAt.

(** ** Facts about the enumeration of parameters *)

Lemma append_inj_l (c a b : string) : (c ++ a = c ++ b)%string -> a = b.
Proof.
  induction c as [|x c IH]; simpl; [trivial|].
  intros [= H]. now apply IH.
Qed.

Lemma dotted_inj (c a b : string) : dotted c a = dotted c b -> a = b.
Proof.
  unfold dotted. intros H. apply append_inj_l in H. now apply append_inj_l in H.
Qed.

Lemma keys_prefixed (c : string) (its : list (string * Parameter_)) :
  keys (prefixed c its) = map (dotted c) (keys its).
Proof. unfold keys, prefixed. now rewrite !map_map. Qed.

Lemma NoDup_map_inj {A B : Type} (g : A -> B) (l : list A) :
  (forall a b, g a = g b -> a = b) -> NoDup l -> NoDup (map g l).
Proof.
  intros Hg. induction 1 as [|x l Hx Hl IH]; simpl; constructor; [|assumption].
  intros Hin. apply in_map_iff in Hin as (y & Hy & Hin).
  apply Hg in Hy. now subst.
Qed.

Lemma NoDup_map_source {A B : Type} (g : A -> B) (l : list A) :
  NoDup (map g l) -> NoDup l.
Proof.
  induction l as [|x l IH]; simpl; intros H; [constructor|].
  inversion H as [|? ? Hx Hl]; subst. constructor; [|now apply IH].
  intros Hin. apply Hx. now apply in_map.
Qed.

Lemma last_binding_prefixed (c k : string) (its : list (string * Parameter_)) :
  last_binding (dotted c k) (prefixed c its) = last_binding k its.
Proof.
  induction its as [|[k' v] its IH]; simpl; [reflexivity|].
  fold (prefixed c its). rewrite IH.
  destruct (last_binding k its); [reflexivity|].
  destruct (String.eqb_spec k k') as [->|Hne].
  - now rewrite String.eqb_refl.
  - destruct (String.eqb_spec (dotted c k) (dotted c k')) as [E|_]; [|reflexivity].
    apply dotted_inj in E. contradiction.
Qed.

(** Two lists of items with the same last bindings keep them under a
    prefix. *)
Lemma last_binding_prefixed_ext (c k : string) (a b : list (string * Parameter_)) :
  (forall k', last_binding k' a = last_binding k' b) ->
  last_binding k (prefixed c a) = last_binding k (prefixed c b).
Proof.
  intros Hab.
  assert (image : forall its, last_binding k (prefixed c its) <> None ->
                    exists k0, k = dotted c k0).
  { intros its H.
    destruct (in_dec string_dec k (keys (prefixed c its))) as [Hin|Hout].
    - rewrite keys_prefixed in Hin. apply in_map_iff in Hin as (k0 & <- & _).
      now exists k0.
    - apply last_binding_None in Hout. contradiction. }
  destruct (last_binding k (prefixed c a)) eqn:Ea.
  - destruct (image a) as (k0 & ->); [now rewrite Ea|].
    rewrite last_binding_prefixed in *. now rewrite <- Hab.
  - destruct (last_binding k (prefixed c b)) eqn:Eb; [|reflexivity].
    destruct (image b) as (k0 & ->); [now rewrite Eb|].
    rewrite last_binding_prefixed in *. rewrite Hab in Ea. congruence.
Qed.

Lemma last_binding_dict_of (k : string) (its : list (string * Parameter_)) :
  last_binding k (dict_of its) = last_binding k its.
Proof.
  rewrite <- dict_get_last_binding by apply dict_of_wf.
  unfold dict_of. rewrite dict_get_update. simpl.
  now destruct (last_binding k its).
Qed.

(** The loop of [_named_parameters] as a fold over the children. *)
Lemma _named_parameters_fold (mods : dict Module) (params : dict Parameter_)
    (flds : dict Value) :
  _named_parameters (mkModule mods params flds) =
  fold_left (fun acc kc =>
               dict_update acc
                 (dict_of (prefixed (fst kc) (_named_parameters (snd kc)))))
            mods (dict_of params).
Proof.
  simpl. unfold items. generalize (dict_of params).
  induction mods as [|[c m] mods IH]; intros acc; simpl; [reflexivity|].
  apply IH.
Qed.

Lemma _named_parameters_wf (m : Module) : dict_wf (_named_parameters m).
Proof.
  destruct m as [mods params flds]. rewrite _named_parameters_fold.
  assert (H : dict_wf (dict_of params)) by apply dict_of_wf.
  revert H. generalize (dict_of params).
  induction mods as [|[c m] mods IH]; intros acc Hacc; simpl; [assumption|].
  apply IH. now apply dict_wf_update.
Qed.

Lemma owned_nonempty (m : Module) :
  Forall (fun np => fst np <> []) (owned m).
Proof.
  destruct m as [mods params flds]. simpl. apply Forall_app. split.
  - apply Forall_map. apply Forall_forall. intros kv _. discriminate.
  - apply Forall_flat_map. apply Forall_forall. intros [c n] _.
    apply Forall_map. apply Forall_forall. intros np _. discriminate.
Qed.

Lemma concat_cons (c : string) (ks : list string) :
  ks <> [] -> String.concat "." (c :: ks) = dotted c (String.concat "." ks).
Proof. destruct ks; [congruence | reflexivity]. Qed.

(** The enumeration of the specification, one level unfolded. *)
Lemma named_parameters_spec_unfold (mods : dict Module)
    (params : dict Parameter_) (flds : dict Value) :
  named_parameters_spec (mkModule mods params flds) =
  params ++ flat_map (fun kc => prefixed (fst kc) (named_parameters_spec (snd kc))) mods.
Proof.
  unfold named_parameters_spec. simpl. rewrite map_app, map_map. simpl.
  f_equal.
  - rewrite <- (map_id params) at 2. apply map_ext. now intros [k v].
  - induction mods as [|[c m] mods IH]; simpl; [reflexivity|].
    rewrite map_app, IH. f_equal.
    unfold prefixed. rewrite !map_map.
    apply map_ext_Forall.
    eapply Forall_impl; [|apply owned_nonempty].
    intros [ks p] Hks. cbn [fst snd] in *. now rewrite concat_cons.
Qed.

(** Under every key the merged dict holds the binding that the enumeration
    of the specification makes last. *)
Lemma _named_parameters_lookup (m : Module) (k : string) :
  dict_get k (_named_parameters m) = last_binding k (named_parameters_spec m).
Proof.
  revert k. induction m as [mods params flds IH] using Module_tree_ind.
  intros k. rewrite _named_parameters_fold, named_parameters_spec_unfold.
  rewrite last_binding_app, <- (last_binding_dict_of k params).
  rewrite <- (dict_get_last_binding k (dict_of params)) by apply dict_of_wf.
  generalize (dict_of params).
  induction IH as [|[c n] mods Hn _ IHmods]; intros acc; simpl.
  - reflexivity.
  - rewrite IHmods, last_binding_app, dict_get_update, last_binding_dict_of.
    destruct (last_binding k (flat_map _ mods)); [reflexivity|].
    simpl in Hn.
    rewrite (last_binding_prefixed_ext c k (_named_parameters n)
               (named_parameters_spec n)); [reflexivity|].
    intros k'. rewrite <- Hn. symmetry.
    apply dict_get_last_binding, _named_parameters_wf.
Qed.

(** Without colliding keys the merged dict is the enumeration of the
    specification, item by item. *)
Lemma _named_parameters_exact (m : Module) :
  NoDup (keys (named_parameters_spec m)) ->
  _named_parameters m = named_parameters_spec m.
Proof.
  induction m as [mods params flds IH] using Module_tree_ind.
  rewrite _named_parameters_fold, named_parameters_spec_unfold.
  intros Hnd.
  assert (Hp : dict_of params = params).
  { apply dict_of_id. unfold keys in *. rewrite map_app in Hnd.
    now apply NoDup_app_remove_r in Hnd. }
  rewrite Hp. clear Hp. revert Hnd. generalize params as acc.
  induction IH as [|[c n] mods Hn _ IHmods]; intros acc Hnd; simpl.
  - now rewrite app_nil_r.
  - simpl in Hn. cbn [flat_map fst snd] in Hnd. rewrite app_assoc in Hnd.
    assert (Hhead : NoDup (keys (acc ++ prefixed c (named_parameters_spec n)))).
    { unfold keys in *. rewrite map_app in Hnd.
      now apply NoDup_app_remove_r in Hnd. }
    assert (Hchild : NoDup (keys (named_parameters_spec n))).
    { unfold keys in Hhead. rewrite map_app in Hhead.
      apply NoDup_app_remove_l in Hhead.
      fold (keys (prefixed c (named_parameters_spec n))) in Hhead.
      rewrite keys_prefixed in Hhead. now apply NoDup_map_source in Hhead. }
    rewrite (Hn Hchild).
    assert (Hpre : NoDup (keys (prefixed c (named_parameters_spec n)))).
    { rewrite keys_prefixed. apply NoDup_map_inj; [apply dotted_inj | assumption]. }
    rewrite (dict_of_id _ Hpre).
    rewrite dict_update_fresh.
    + rewrite IHmods by assumption. now rewrite <- app_assoc.
    + unfold keys in *. now rewrite map_app in Hhead.
Qed.

(** The prefix of a path and of the paths below it. *)
Lemma is_prefix_app (p q : path) : is_prefix p (p ++ q) = true.
Proof.
  induction p as [|k p IH]; simpl; [reflexivity|].
  now rewrite String.eqb_refl.
Qed.

(** * The claims *)

(** ** Attribute assignment (C1) *)

(** C1, counterexample.  [m = Module(); m.x = Module(); m.x = Parameter(1)]:
    the assignment of the parameter leaves the child [x] in the child mapping,
    so the name [x] is held by two storage classes at once. *)
Lemma setattr_keeps_other_storage :
  __setattr__ Module_init "x" (OModule Module_init) = Some with_child_x
  /\ __setattr__ with_child_x "x" (OParameter one)
     = Some with_child_and_parameter_x
  /\ dict_get "x" (_parameters with_child_and_parameter_x) = Some one
  /\ dict_get "x" (_modules with_child_and_parameter_x) = Some Module_init
  /\ exclusive with_child_x "x"
  /\ ~ exclusive with_child_and_parameter_x "x".
Proof.
  unfold exclusive. repeat split; try reflexivity.
  vm_compute. lia.
Qed.

(** C1, as amended.  An assignment [self.key = val] binds [key] in the
    storage class that the type of [val] selects (the parameter mapping for a
    Parameter, the child mapping for a Module, the plain fields for any other
    value), replaces what that class held under [key], keeps every other name
    of that class, and leaves the two other storage classes as they were:
    an entry that another class holds under [key] stays. *)
Theorem setattr_routes_by_type (self : Module) (key : string) (val : Obj)
    (self' : Module) :
  __setattr__ self key val = Some self' ->
  match val with
  | OParameter p =>
      dict_get key (_parameters self') = Some p
      /\ (forall k, k <> key ->
            dict_get k (_parameters self') = dict_get k (_parameters self))
      /\ _modules self' = _modules self
      /\ fields self' = fields self
  | OModule m =>
      dict_get key (_modules self') = Some m
      /\ (forall k, k <> key ->
            dict_get k (_modules self') = dict_get k (_modules self))
      /\ _parameters self' = _parameters self
      /\ fields self' = fields self
  | OValue v =>
      dict_get key (fields self') = Some v
      /\ (forall k, k <> key ->
            dict_get k (fields self') = dict_get k (fields self))
      /\ _parameters self' = _parameters self
      /\ _modules self' = _modules self
  end.
Proof.
  destruct val as [v|p|m]; simpl.
  - destruct (special key); [discriminate|]. intros [= <-]. simpl.
    repeat split; [apply dict_get_set_eq|].
    intros k Hk. now apply dict_get_set_ne.
  - intros [= <-]. simpl.
    repeat split; [apply dict_get_set_eq|].
    intros k Hk. now apply dict_get_set_ne.
  - intros [= <-]. simpl.
    repeat split; [apply dict_get_set_eq|].
    intros k Hk. now apply dict_get_set_ne.
Qed.

Lemma setattr_routes_by_type_witness :
  __setattr__ with_child_x "x" (OParameter one)
    = Some with_child_and_parameter_x
  /\ (dict_get "x" (_parameters with_child_and_parameter_x) = Some one
      /\ (forall k, k <> "x" ->
            dict_get k (_parameters with_child_and_parameter_x)
            = dict_get k (_parameters with_child_x))
      /\ _modules with_child_and_parameter_x = _modules with_child_x
      /\ fields with_child_and_parameter_x = fields with_child_x).
Proof.
  split; [reflexivity|].
  exact (setattr_routes_by_type with_child_x "x" (OParameter one)
           with_child_and_parameter_x eq_refl).
Defined.

(** The assignment is defined but for a plain value under a special name. *)
Lemma setattr_defined (self : Module) (key : string) (val : Obj) :
  __setattr__ self key val = None <->
  (exists v, val = OValue v) /\ special key = true.
Proof.
  destruct val as [v|p|m]; simpl.
  - destruct (special key); split.
    + intros _. split; [now exists v | reflexivity].
    + reflexivity.
    + discriminate.
    + now intros [_ H].
  - split; [discriminate | now intros [[v H] _]].
  - split; [discriminate | now intros [[v H] _]].
Qed.

(** The assignment in [train] and [eval], [self.training = b], is a plain
    one. *)
Lemma setattr_training (self : Module) (b : bool) :
  __setattr__ self "training" (OValue (VBool b))
  = Some (object_setattr self "training" (VBool b)).
Proof. reflexivity. Qed.

(** ** Attribute lookup (C2) *)

(** What a read yields for a name that the default lookup does not find: the
    parameter under that name, else the child under that name, else [None]. *)
Lemma getattr_fallback (object_attr : string -> bool) (self : Module)
    (key : string) :
  found_by_default object_attr self key = false ->
  getattr object_attr self key =
  match dict_get key (_parameters self) with
  | Some p => Ok (AObj (OParameter p))
  | None =>
      match dict_get key (_modules self) with
      | Some m => Ok (AObj (OModule m))
      | None => Ok (AObj (OValue VNone))
      end
  end.
Proof.
  unfold found_by_default, getattr, dict_mem, __getattr__.
  intros H. apply orb_false_elim in H as [H Hc].
  apply orb_false_elim in H as [Hs Hf].
  assert (Hm : String.eqb key "_modules" = false).
  { destruct (String.eqb_spec key "_modules") as [->|]; [discriminate | reflexivity]. }
  assert (Hp : String.eqb key "_parameters" = false).
  { destruct (String.eqb_spec key "_parameters") as [->|]; [discriminate | reflexivity]. }
  rewrite Hm, Hp, Hs, Hc.
  destruct (dict_get key (fields self)); [discriminate|].
  destruct (dict_get key (_parameters self)); [reflexivity|].
  now destruct (dict_get key (_modules self)).
Qed.

(** C2.  A fresh module read at a name that is neither a field, nor a
    parameter, nor a child: [Module().foo] returns [None]; no error is
    raised. *)
Theorem getattr_missing_returns_None :
  __getattr__ Module_init "foo" = Ok (OValue VNone)
  /\ getattr cpython_attr Module_init "foo" = Ok (AObj (OValue VNone))
  /\ getattr cpython_attr Module_init "foo" <> Raise AttributeError.
Proof. repeat split. discriminate. Qed.

(** ** Enumeration of the parameters (C3, C8, C9) *)

Lemma dict_get_of_In {A : Type} (k : string) (v : A) (d : dict A) :
  dict_wf d -> In (k, v) d -> dict_get k d = Some v.
Proof.
  unfold dict_wf. induction d as [|[k' v'] d IH]; simpl; [contradiction|].
  intros Hnd [E|Hin]; inversion Hnd as [|? ? Hout Hnd']; subst.
  - injection E as -> ->. now rewrite String.eqb_refl.
  - destruct (String.eqb_spec k k') as [->|Hne]; [|now apply IH].
    exfalso. apply Hout. change k' with (fst (k', v)). now apply in_map.
Qed.

(** C3, counterexample.  [r = Module(); r.add_parameter("a.p2", 1); r.a = a]
    where [a] owns [p2]: the root's parameter and the child's flatten to the
    same key, and the enumeration holds one pair where the claim lists two. *)
Lemma named_parameters_collision :
  __setattr__ (fst (add_parameter Module_init "a.p2" (VInt 1))) "a" (OModule child_a)
    = Some root_colliding
  /\ named_parameters_spec root_colliding
     = [("a.p2", mkParameter (VInt 1) (Some "a.p2"));
        ("a.p2", mkParameter (VInt 10) (Some "p2"))]
  /\ named_parameters root_colliding
     = [("a.p2", mkParameter (VInt 10) (Some "p2"))]
  /\ named_parameters root_colliding <> named_parameters_spec root_colliding.
Proof. repeat split. discriminate. Qed.

(** C3, as amended.  When the dotted paths of the parameters owned by a module
    and by its descendants are pairwise distinct, [named_parameters] returns
    exactly the pairs of dotted path and parameter, the module's own
    parameters first in insertion order, then each child's contribution under
    the same rule, children in insertion order. *)
Theorem named_parameters_enumerates (m : Module) :
  NoDup (keys (named_parameters_spec m)) ->
  named_parameters m = named_parameters_spec m.
Proof. apply _named_parameters_exact. Qed.

Lemma named_parameters_enumerates_witness :
  NoDup (keys (named_parameters_spec root_p_a))
  /\ named_parameters root_p_a = named_parameters_spec root_p_a.
Proof.
  assert (H : NoDup (keys (named_parameters_spec root_p_a))).
  { repeat constructor; simpl; intuition discriminate. }
  split; [exact H | exact (named_parameters_enumerates root_p_a H)].
Defined.

(** The example of the specification, for any two parameters. *)
Example named_parameters_root_then_child (p p2 : Parameter_) (f fa : dict Value) :
  named_parameters (mkModule [("a", mkModule [] [("p2", p2)] fa)] [("p", p)] f)
  = [("p", p); ("a.p2", p2)].
Proof. reflexivity. Qed.

(** C8.  [parameters] is [named_parameters] with the names dropped: the same
    length, and the same parameter at every index. *)
Theorem parameters_are_named_parameters_values (m : Module) :
  parameters m = map snd (named_parameters m)
  /\ length (parameters m) = length (named_parameters m)
  /\ forall i, nth_error (parameters m) i
               = option_map snd (nth_error (named_parameters m) i).
Proof.
  unfold parameters. repeat split.
  - apply length_map.
  - intros i. apply nth_error_map.
Qed.

(** C9.  The enumeration never holds two pairs under one key, and the pair it
    holds under a key is the one that comes last among the pairs of that key
    in enumeration order (own parameters, then the children in insertion
    order): a later contribution overwrites an earlier one. *)
Theorem named_parameters_last_write_wins (m : Module) :
  NoDup (keys (named_parameters m))
  /\ (forall k, dict_get k (named_parameters m)
                = last_binding k (named_parameters_spec m))
  /\ (forall k p, In (k, p) (named_parameters m)
                  <-> last_binding k (named_parameters_spec m) = Some p).
Proof.
  unfold named_parameters, items.
  assert (Hwf := _named_parameters_wf m).
  split; [exact Hwf|]. split; [apply _named_parameters_lookup|].
  intros k p. rewrite <- _named_parameters_lookup. split.
  - now apply dict_get_of_In.
  - apply dict_get_In.
Qed.

(** ** Training mode (C4, C10) *)

Lemma forget_nodes (a b : Module) (q : path) (M : Module) :
  forget a = forget b -> at_path a q = Some M ->
  exists M', at_path b q = Some M' /\ forget M' = forget M.
Proof.
  intros Hab HM.
  assert (H : option_map forget (at_path b q) = Some (forget M)).
  { now rewrite <- at_path_forget, <- Hab, at_path_forget, HM. }
  destruct (at_path b q) as [M'|]; [|discriminate].
  injection H as H. now exists M'.
Qed.

Lemma set_mode_sets_mode_below (run : Module -> Module * list path) (b : bool)
    (root : Module) (p : path) (N : Module) :
  (forall m, fst (run m) = set_mode b m) ->
  at_path root p = Some N -> sets_mode_below run b root p N.
Proof.
  intros Hrun HN.
  destruct (call_at_defined (fun m => fst (run m)) root p N HN) as (root' & Hc & Hq).
  exists root'. split; [exact Hc|]. intros q D HD.
  rewrite Hq, Hrun, at_path_set_mode, HD. simpl.
  eexists. split; [reflexivity | apply training_set_mode].
Qed.

Lemma set_mode_changes_training_only (run : Module -> Module * list path)
    (b : bool) (root : Module) (p : path) (N : Module) :
  (forall m, fst (run m) = set_mode b m) ->
  at_path root p = Some N -> changes_training_only run root p.
Proof.
  intros Hrun HN.
  destruct (call_at_defined (fun m => fst (run m)) root p N HN) as (root' & Hc & _).
  assert (Hf : forget root' = forget root).
  { apply (call_at_forget (fun m => fst (run m)) root root' p); [|exact Hc].
    intros m. rewrite Hrun. apply forget_set_mode. }
  exists root'. repeat split; try assumption.
  - intros q M HM.
    destruct (forget_nodes root root' q M (eq_sym Hf) HM) as (M' & HM' & HfM).
    exists M'. split; [exact HM'|].
    destruct (forget_fields M' M HfM) as (Hp & Hk & Hr).
    repeat split; try assumption.
    intros Hout.
    destruct (call_at_outside _ root root' p q M Hc Hout HM) as (M'' & HM'' & Hfl & _).
    rewrite HM' in HM''. now injection HM'' as ->.
  - intros q M' HM'.
    destruct (forget_nodes root' root q M' Hf HM') as (M & HM & _). now exists M.
Qed.

Lemma fst_train (m : Module) : fst (train m) = set_mode true m.
Proof. now rewrite train_spec. Qed.

Lemma fst_eval (m : Module) : fst (eval m) = set_mode false m.
Proof. now rewrite eval_spec. Qed.

(** C4.  For a node [N] at any path [p] of a module tree, [N.train()] sets the
    training flag to [True] and [N.eval()] sets it to [False] on [N] and on
    every descendant of [N]; both assign the flags in pre-order, every node of
    the subtree among them; and [train()] followed by [eval()] leaves the flag
    [False] on every node of the subtree, whatever its depth. *)
Theorem train_eval_set_every_descendant (root : Module) (p : path) (N : Module) :
  at_path root p = Some N ->
  sets_mode_below train true root p N
  /\ sets_mode_below eval false root p N
  /\ snd (train N) = preorder N
  /\ snd (eval N) = preorder N
  /\ (forall q D, at_path N q = Some D -> In q (preorder N))
  /\ (forall q D, at_path N q = Some D ->
        exists D', at_path (fst (eval (fst (train N)))) q = Some D'
                   /\ training D' = Some (VBool false)).
Proof.
  intros HN. repeat split.
  - now apply set_mode_sets_mode_below; [apply fst_train|].
  - now apply set_mode_sets_mode_below; [apply fst_eval|].
  - now rewrite train_spec.
  - now rewrite eval_spec.
  - apply in_preorder.
  - intros q D HD.
    rewrite fst_eval, fst_train, !at_path_set_mode, HD. simpl.
    eexists. split; [reflexivity | apply training_set_mode].
Qed.

Lemma train_eval_set_every_descendant_witness :
  at_path root_p_a ["a"] = Some child_a
  /\ sets_mode_below train true root_p_a ["a"] child_a
  /\ sets_mode_below eval false root_p_a ["a"] child_a.
Proof.
  split; [reflexivity|].
  split; apply (train_eval_set_every_descendant root_p_a ["a"] child_a eq_refl).
Defined.

(** C10.  [N.train()] and [N.eval()], called on the node at any path [p] of a
    module tree, change training flags only, and only at or below [p]: every
    module keeps its parameter mapping (so every parameter its value and its
    name), the names of its children and its other fields, and the tree keeps
    its nodes. *)
Theorem train_eval_change_training_only (root : Module) (p : path) (N : Module) :
  at_path root p = Some N ->
  changes_training_only train root p /\ changes_training_only eval root p.
Proof.
  intros HN. split.
  - now apply (set_mode_changes_training_only train true root p N); [apply fst_train|].
  - now apply (set_mode_changes_training_only eval false root p N); [apply fst_eval|].
Qed.

Lemma train_eval_change_training_only_witness :
  at_path root_p_a ["a"] = Some child_a
  /\ changes_training_only train root_p_a ["a"]
  /\ changes_training_only eval root_p_a ["a"].
Proof.
  split; [reflexivity|].
  exact (train_eval_change_training_only root_p_a ["a"] child_a eq_refl).
Defined.

(** ** add_parameter (C5) *)

(** C5, counterexample.  [m = Module(); m.add_parameter("training", 5)]: the
    parameter is registered, but [m.training] is found in the instance
    [__dict__] first and reads the flag [True], not the parameter. *)
Lemma add_parameter_hidden_by_field :
  dict_get "training" (_parameters (fst (add_parameter Module_init "training" (VInt 5))))
    = Some (snd (add_parameter Module_init "training" (VInt 5)))
  /\ getattr cpython_attr (fst (add_parameter Module_init "training" (VInt 5)))
       "training"
     = Ok (AObj (OValue (VBool true)))
  /\ getattr cpython_attr (fst (add_parameter Module_init "training" (VInt 5)))
       "training"
     <> Ok (AObj (OParameter (snd (add_parameter Module_init "training" (VInt 5))))).
Proof. repeat split. discriminate. Qed.

(** C5, as amended.  [add_parameter(k, v)] creates the parameter
    [Parameter(v, k)] (a plain [v] is held as it is; a tracked [v] has its
    gradient flag set and takes the name [k] unless [k] is empty), binds it
    under [k] in the parameter mapping in place of any earlier entry, leaves
    the other entries, the children and the fields alone, and returns it.
    Reading the attribute [k] afterwards yields that parameter provided that
    [k] is not found by the default lookup (it is no plain field of the module
    and no attribute of its class). *)
Theorem add_parameter_registers (object_attr : string -> bool) (self : Module)
    (k : string) (v : Value) :
  let self' := fst (add_parameter self k v) in
  let val := snd (add_parameter self k v) in
  val = Parameter_init v (Some k)
  /\ name val = Some k
  /\ value val =
     match v with
     | VTracked t =>
         VTracked (mkTracked (payload t) true
                     (if String.eqb k "" then tracked_name t else k))
     | _ => v
     end
  /\ dict_get k (_parameters self') = Some val
  /\ (forall k', k' <> k ->
        dict_get k' (_parameters self') = dict_get k' (_parameters self))
  /\ _modules self' = _modules self
  /\ fields self' = fields self
  /\ (found_by_default object_attr self k = false ->
      getattr object_attr self' k = Ok (AObj (OParameter val))).
Proof.
  simpl. repeat split.
  - now destruct v.
  - destruct v as [| | | |t]; try reflexivity. simpl.
    now destruct (String.eqb k "").
  - apply dict_get_set_eq.
  - intros k' Hk'. now apply dict_get_set_ne.
  - intros Hfound. rewrite getattr_fallback by exact Hfound.
    simpl. now rewrite dict_get_set_eq.
Qed.

Lemma add_parameter_registers_witness :
  found_by_default cpython_attr Module_init "w" = false
  /\ value (snd (add_parameter Module_init "w" (VInt 5))) = VInt 5
  /\ getattr cpython_attr (fst (add_parameter Module_init "w" (VInt 5))) "w"
     = Ok (AObj (OParameter (snd (add_parameter Module_init "w" (VInt 5))))).
Proof.
  split; [reflexivity|]. split.
  - apply (add_parameter_registers cpython_attr Module_init "w" (VInt 5)).
  - apply (add_parameter_registers cpython_attr Module_init "w" (VInt 5)).
    reflexivity.
Defined.

(** ** Parameter.update (C6) *)

(** C6, counterexample.  [P = Parameter(0, ""); P.update(y)] for a tracked [y]
    named [old]: the name of [P] is present and empty, which [if self.name:]
    takes for false, and [y] keeps its own name. *)
Lemma update_empty_name_not_propagated :
  name (Parameter_init (VInt 0) (Some "")) = Some ""
  /\ update (Parameter_init (VInt 0) (Some "")) (VTracked (mkTracked 7 false "old"))
     = mkParameter (VTracked (mkTracked 7 true "old")) (Some "")
  /\ value (update (Parameter_init (VInt 0) (Some ""))
                   (VTracked (mkTracked 7 false "old")))
     <> VTracked (mkTracked 7 true "").
Proof. repeat split. discriminate. Qed.

(** C6, as amended.  For a parameter constructed from [x] with the optional
    name [n], [update(y)] leaves the name [n] and replaces the value by [y];
    when [y] is tracked its gradient flag is set, and it takes the name [n]
    when [n] is present and not empty (with no name, or the empty one, [y]
    keeps its own). *)
Theorem update_replaces_value (x : Value) (n : option string) (y : Value) :
  name (Parameter_init x n) = n
  /\ name (update (Parameter_init x n) y) = n
  /\ value (update (Parameter_init x n) y) =
     match y with
     | VTracked t =>
         VTracked (mkTracked (payload t) true
                     (match n with
                      | Some s => if String.eqb s "" then tracked_name t else s
                      | None => tracked_name t
                      end))
     | _ => y
     end.
Proof.
  assert (Hn : name (Parameter_init x n) = n) by now destruct x.
  repeat split; [exact Hn | |].
  - destruct y; simpl; now rewrite ?Hn.
  - destruct y as [| | | |t]; try reflexivity. simpl. rewrite Hn.
    destruct n as [s|]; [|reflexivity]. simpl.
    now destruct (String.eqb s "").
Qed.

(** ** forward and the call of a module (C7) *)

(** C7, counterexample.  [Module().forward(1)] and [Module()(1)]: the
    argument does not fit the signature [forward(self)], and the call fails
    with a TypeError before the assertion is reached. *)
Lemma forward_with_argument_is_TypeError :
  forward Module_init [VInt 1] [] = Raise TypeError
  /\ __call__ Module_init [VInt 1] [] = Raise TypeError
  /\ forward Module_init [VInt 1] [] <> Raise (AssertionError "Not Implemented").
Proof. repeat split. discriminate. Qed.

(** C7, as amended.  [forward] of the base class fails at every call: with
    the assertion error "Not Implemented" when it is given no argument, and
    only then (any argument fails against its signature).  Calling a module
    of any class is calling its [forward] with the same positional and keyword
    arguments. *)
Theorem forward_fails_and_call_is_forward (self : Module) (args : list Value)
    (kwargs : dict Value) :
  forward self [] [] = Raise (AssertionError "Not Implemented")
  /\ (exists e, forward self args kwargs = Raise e)
  /\ (forward self args kwargs = Raise (AssertionError "Not Implemented")
      <-> args = [] /\ kwargs = [])
  /\ (forall C : ModuleClass,
        @__call__ C self args kwargs = @call_forward C self args kwargs)
  /\ @__call__ Base self args kwargs = forward self args kwargs.
Proof.
  repeat split.
  - destruct args, kwargs; eexists; reflexivity.
  - destruct args; [reflexivity | discriminate].
  - destruct args; [|discriminate]. destruct kwargs; [reflexivity | discriminate].
  - now intros [-> ->].
Qed.

(** * Further properties of the code *)

(** ** More facts about dicts *)

Lemma dict_set_set {A : Type} (k : string) (v w : A) (d : dict A) :
  dict_set k w (dict_set k v d) = dict_set k w d.
Proof.
  induction d as [|[k' v'] d IH]; simpl.
  - now rewrite String.eqb_refl.
  - destruct (String.eqb_spec k k') as [->|Hne]; simpl.
    + now rewrite String.eqb_refl.
    + apply String.eqb_neq in Hne. rewrite Hne. now rewrite IH.
Qed.

Lemma length_dict_set {A : Type} (k : string) (v : A) (d : dict A) :
  length (dict_set k v d) = if dict_mem k d then length d else S (length d).
Proof.
  unfold dict_mem. induction d as [|[k' v'] d IH]; simpl; [reflexivity|].
  destruct (String.eqb_spec k k') as [->|Hne]; simpl; [reflexivity|].
  rewrite IH. now destruct (dict_get k d).
Qed.



(** ** Parameter: construction and update *)

(** [update] runs the rule of the constructor again: updating is
    constructing anew under the same name, so of two updates the last one
    decides, and storing again the value that is held changes nothing. *)
Theorem update_is_construction (P : Parameter_) (y z : Value) :
  update P y = Parameter_init y (name P)
  /\ update (update P y) z = update P z
  /\ update (update P y) (value (update P y)) = update P y.
Proof.
  assert (Hn : forall w, name (update P w) = name P) by (intros w; now destruct w).
  split; [reflexivity|]. split.
  - destruct z as [| | | |t]; simpl; rewrite ?Hn; reflexivity.
  - destruct y as [| | | |t]; try reflexivity. simpl.
    destruct (name P) as [s|]; simpl; [|reflexivity].
    now destruct (String.eqb s "").
Qed.

(** A parameter that comes out of the constructor or of [update] satisfies
    the rule, whatever the parameter updated and whatever the value: a tracked
    value has its gradient flag set and bears the non-empty name of the
    parameter, and a plain value is held as it was given. *)
Theorem constructor_rule_holds (P : Parameter_) (x : Value) (n : option string) :
  Parameter_ok (Parameter_init x n)
  /\ Parameter_ok (update P x)
  /\ (hasattr_requires_grad_ x = false ->
      value (Parameter_init x n) = x /\ value (update P x) = x).
Proof.
  assert (H : forall m, Parameter_ok (Parameter_init x m)).
  { intros m. unfold Parameter_ok. destruct x as [| | | |t]; simpl; try exact I.
    destruct m as [s|]; simpl.
    - destruct (String.eqb s ""); simpl; split; try reflexivity; discriminate.
    - split; [reflexivity | discriminate]. }
  repeat split.
  - apply H.
  - replace (update P x) with (Parameter_init x (name P)); [apply H|].
    now destruct x.
  - destruct x; try reflexivity; discriminate.
  - destruct x; try reflexivity; discriminate.
Qed.

(** ** Module: assignment, lookup and registration *)




(** Assign, then look up with [__getattr__]: a parameter is read back; a
    module is read back unless a parameter is registered under the same name,
    which is then what the lookup yields; a plain value changes nothing of
    what [__getattr__] yields; and no other name is affected. *)
Theorem getattr_after_setattr (self : Module) (key : string) (val : Obj)
    (self' : Module) :
  __setattr__ self key val = Some self' ->
  __getattr__ self' key =
    match val with
    | OParameter p => Ok (OParameter p)
    | OModule c =>
        match dict_get key (_parameters self) with
        | Some p => Ok (OParameter p)
        | None => Ok (OModule c)
        end
    | OValue _ => __getattr__ self key
    end
  /\ forall k, k <> key -> __getattr__ self' k = __getattr__ self k.
Proof.
  unfold __getattr__. destruct val as [v|p|c]; simpl.
  - destruct (special key); [discriminate|]. intros [= <-]. now split.
  - intros [= <-]. simpl. rewrite dict_get_set_eq. split; [reflexivity|].
    intros k Hk. now rewrite dict_get_set_ne.
  - intros [= <-]. simpl. rewrite dict_get_set_eq. split; [reflexivity|].
    intros k Hk. now rewrite dict_get_set_ne.
Qed.

Lemma getattr_after_setattr_witness :
  __setattr__ (fst (add_parameter Module_init "x" (VInt 1))) "x" (OModule child_a)
    = Some (mkModule [("x", child_a)]
              [("x", mkParameter (VInt 1) (Some "x"))] [("training", VBool true)])
  /\ __getattr__ (mkModule [("x", child_a)]
                    [("x", mkParameter (VInt 1) (Some "x"))]
                    [("training", VBool true)]) "x"
     = Ok (OParameter (mkParameter (VInt 1) (Some "x"))).
Proof.
  split; [reflexivity|].
  exact (proj1 (getattr_after_setattr
                  (fst (add_parameter Module_init "x" (VInt 1))) "x"
                  (OModule child_a)
                  (mkModule [("x", child_a)]
                     [("x", mkParameter (VInt 1) (Some "x"))]
                     [("training", VBool true)])
                  eq_refl)).
Defined.

(** Registering a parameter twice under one name keeps the second only, at
    the place of the first: the mapping is the one that registering the second
    alone gives, and its names are those before, with the new name at the end
    when it was not there. *)
Theorem add_parameter_overwrites (self : Module) (k : string) (v w : Value) :
  fst (add_parameter (fst (add_parameter self k v)) k w)
  = fst (add_parameter self k w)
  /\ keys (_parameters (fst (add_parameter self k v)))
     = (if dict_mem k (_parameters self) then keys (_parameters self)
        else keys (_parameters self) ++ [k])
  /\ length (_parameters (fst (add_parameter (fst (add_parameter self k v)) k w)))
     = length (_parameters (fst (add_parameter self k v))).
Proof.
  simpl. repeat split.
  - now rewrite dict_set_set.
  - apply keys_dict_set.
  - rewrite !length_dict_set. unfold dict_mem at 1.
    now rewrite dict_get_set_eq.
Qed.

(** ** Module: the tree stays well formed *)







(** ** Module: more on the training mode *)

Lemma set_mode_set_mode (b b' : bool) (m : Module) :
  set_mode b (set_mode b' m) = set_mode b m.
Proof.
  induction m as [mods params flds IH] using Module_tree_ind. simpl.
  rewrite dict_set_set. f_equal. rewrite map_map.
  induction IH as [|[k c] mods Hc _ IHmods]; simpl; [reflexivity|].
  simpl in Hc. now rewrite Hc, IHmods.
Qed.

Lemma preorder_set_mode (b : bool) (m : Module) :
  preorder (set_mode b m) = preorder m.
Proof.
  induction m as [mods params flds IH] using Module_tree_ind. simpl. f_equal.
  induction IH as [|[k c] mods Hc _ IHmods]; simpl; [reflexivity|].
  simpl in Hc. now rewrite Hc, IHmods.
Qed.

(** [train] and [eval] are idempotent, and the one called last decides: the
    tree after [eval] then [train] is the tree after [train] alone, and the
    other way round.  The mode of a tree never changes the order of the
    visit. *)
Theorem train_eval_last_call_decides (m : Module) :
  fst (train (fst (train m))) = fst (train m)
  /\ fst (eval (fst (eval m))) = fst (eval m)
  /\ fst (train (fst (eval m))) = fst (train m)
  /\ fst (eval (fst (train m))) = fst (eval m)
  /\ snd (train (fst (eval m))) = snd (train m)
  /\ snd (eval (fst (train m))) = snd (eval m).
Proof.
  rewrite !train_spec, !eval_spec. simpl.
  rewrite ?train_spec, ?eval_spec. simpl.
  rewrite !set_mode_set_mode, !preorder_set_mode. now repeat split.
Qed.

Lemma _named_parameters_set_mode (b : bool) (m : Module) :
  _named_parameters (set_mode b m) = _named_parameters m.
Proof.
  induction m as [mods params flds IH] using Module_tree_ind.
  change (set_mode b (mkModule mods params flds))
    with (mkModule (map (fun kc => match kc with (k, c) => (k, set_mode b c) end) mods)
                   params (dict_set "training" (VBool b) flds)).
  rewrite !_named_parameters_fold. generalize (dict_of params).
  induction IH as [|[k c] mods Hc _ IHmods]; intros acc; simpl; [reflexivity|].
  simpl in Hc. now rewrite Hc, IHmods.
Qed.

(** The mode does not touch the parameters: [named_parameters] and
    [parameters] return after [train] and after [eval] what they returned
    before. *)
Theorem train_eval_keep_named_parameters (m : Module) :
  named_parameters (fst (train m)) = named_parameters m
  /\ named_parameters (fst (eval m)) = named_parameters m
  /\ parameters (fst (train m)) = parameters m
  /\ parameters (fst (eval m)) = parameters m.
Proof.
  unfold parameters, named_parameters.
  rewrite fst_train, fst_eval, !_named_parameters_set_mode. now repeat split.
Qed.

Lemma preorder_nodes (m : Module) (q : path) :
  Module_wf m -> In q (preorder m) -> exists D, at_path m q = Some D.
Proof.
  revert q. induction m as [mods params flds IH] using Module_tree_ind.
  intros q Hwf. inversion Hwf as [? ? ? Hm _ _ Hc]; subst. simpl.
  intros [<-|Hin]; [now eexists|].
  apply in_flat_map in Hin as ([k c] & Hkc & Hin).
  apply in_map_iff in Hin as (q' & <- & Hq'). simpl.
  rewrite (dict_get_of_In k c mods Hm Hkc).
  rewrite Forall_forall in IH, Hc.
  exact (IH (k, c) Hkc q' (Hc (k, c) Hkc) Hq').
Qed.

Lemma preorder_NoDup (m : Module) : Module_wf m -> NoDup (preorder m).
Proof.
  induction m as [mods params flds IH] using Module_tree_ind.
  intros Hwf. inversion Hwf as [? ? ? Hm _ _ Hc]; subst. simpl.
  constructor.
  - intros Hin. apply in_flat_map in Hin as ([k c] & _ & Hin).
    apply in_map_iff in Hin as (q' & E & _). discriminate.
  - clear Hwf. unfold dict_wf in Hm.
    induction IH as [|[k c] mods Hk _ IHmods]; simpl; [constructor|].
    inversion Hc as [|? ? Hck Hc']; subst. simpl in *.
    inversion Hm as [|? ? Hout Hm']; subst.
    apply NoDup_app.
    + apply NoDup_map_inj; [|now apply Hk]. now intros a b' [= ->].
    + now apply IHmods.
    + intros q Hq Hq'. apply in_map_iff in Hq as (q1 & <- & _).
      apply in_flat_map in Hq' as ([k' c'] & Hkc' & Hin).
      apply in_map_iff in Hin as (q2 & [= -> _] & _).
      apply Hout. change k with (fst (k, c')). now apply in_map.
Qed.

(** In a well-formed tree [train] and [eval] assign the flag of every node
    exactly once: the visit lists no path twice, and a path is listed exactly
    when it leads to a node. *)
Theorem train_eval_visit_each_node_once (m : Module) :
  Module_wf m ->
  NoDup (snd (train m))
  /\ snd (eval m) = snd (train m)
  /\ forall q, In q (snd (train m)) <-> exists D, at_path m q = Some D.
Proof.
  intros Hwf. rewrite train_spec, eval_spec. simpl. repeat split.
  - now apply preorder_NoDup.
  - now apply preorder_nodes.
  - intros [D HD]. exact (in_preorder m q D HD).
Qed.

Lemma train_eval_visit_each_node_once_witness :
  Module_wf root_p_a /\ NoDup (snd (train root_p_a)).
Proof.
  assert (H : Module_wf root_p_a).
  { repeat constructor; simpl; tauto. }
  split; [exact H|].
  apply (train_eval_visit_each_node_once root_p_a H).
Defined.

(** ** Module: more on the enumeration of parameters *)

Lemma keys_named_parameters (m : Module) (k : string) :
  In k (keys (_named_parameters m)) <-> In k (keys (named_parameters_spec m)).
Proof.
  assert (H := _named_parameters_lookup m k).
  split; intros Hin.
  - destruct (in_dec string_dec k (keys (named_parameters_spec m))) as [|Hout];
      [assumption|].
    apply last_binding_None in Hout. rewrite Hout in H.
    apply dict_get_None in H. contradiction.
  - destruct (in_dec string_dec k (keys (_named_parameters m))) as [|Hout];
      [assumption|].
    apply dict_get_None in Hout. rewrite Hout in H. symmetry in H.
    apply last_binding_None in H. contradiction.
Qed.

(** No dotted path is lost in the merge: the names that [named_parameters]
    returns are exactly the dotted paths of the parameters owned by the module
    and by its descendants, and it returns at most as many pairs as there are
    such parameters. *)
Theorem named_parameters_names (m : Module) :
  (forall k, In k (keys (named_parameters m)) <->
             exists ks p, In (ks, p) (owned m) /\ k = String.concat "." ks)
  /\ length (named_parameters m) <= length (owned m).
Proof.
  unfold named_parameters, items. split.
  - intros k. rewrite keys_named_parameters.
    unfold keys, named_parameters_spec. rewrite map_map. simpl.
    rewrite in_map_iff. split.
    + intros ([ks p] & <- & Hin). now exists ks, p.
    + intros (ks & p & Hin & ->). now exists (ks, p).
  - replace (length (owned m)) with (length (keys (named_parameters_spec m))).
    + replace (length (_named_parameters m))
        with (length (keys (_named_parameters m))).
      * apply NoDup_incl_length; [apply _named_parameters_wf|].
        intros k. apply keys_named_parameters.
      * unfold keys. apply length_map.
    + unfold keys, named_parameters_spec. now rewrite !length_map.
Qed.

Lemma owned_at_path (root : Module) (p : path) (N : Module) (k : string)
    (v : Parameter_) :
  at_path root p = Some N -> In (k, v) (_parameters N) ->
  In (p ++ [k], v) (owned root).
Proof.
  revert root. induction p as [|c p IH]; intros [mods params flds]; simpl.
  - intros [= <-] Hin. apply in_or_app. left.
    apply in_map_iff. now exists (k, v).
  - destruct (dict_get c mods) as [child|] eqn:E; [|discriminate].
    intros HN Hin. apply in_or_app. right. apply in_flat_map.
    exists (c, child). split; [now apply dict_get_In|].
    apply in_map_iff. exists (p ++ [k], v). split; [reflexivity|].
    now apply IH.
Qed.

(** A parameter registered on a node of the tree is enumerated by the root
    under the dotted path of that node followed by its name: the name is among
    those returned, and it leads to the new parameter when the dotted paths of
    the tree are pairwise distinct. *)
Theorem add_parameter_below_is_enumerated (root : Module) (p : path)
    (N : Module) (k : string) (v : Value) (root' : Module) :
  at_path root p = Some N ->
  call_at (fun m => fst (add_parameter m k v)) p root = Some root' ->
  In (String.concat "." (p ++ [k])) (keys (named_parameters root'))
  /\ (NoDup (keys (named_parameters_spec root')) ->
      dict_get (String.concat "." (p ++ [k])) (named_parameters root')
      = Some (snd (add_parameter N k v))).
Proof.
  intros HN Hcall.
  destruct (call_at_defined (fun m => fst (add_parameter m k v)) root p N HN)
    as (r & Hr & Hq).
  rewrite Hcall in Hr. injection Hr as <-.
  specialize (Hq []). rewrite app_nil_r in Hq. simpl in Hq.
  assert (Hown : In (p ++ [k], snd (add_parameter N k v)) (owned root')).
  { apply (owned_at_path root' p _ k _ Hq). simpl.
    apply dict_get_In, dict_get_set_eq. }
  assert (Hspec : In (String.concat "." (p ++ [k]), snd (add_parameter N k v))
                     (named_parameters_spec root')).
  { unfold named_parameters_spec. apply in_map_iff.
    now exists (p ++ [k], snd (add_parameter N k v)). }
  unfold named_parameters, items. split.
  - apply keys_named_parameters.
    change (String.concat "." (p ++ [k]))
      with (fst (String.concat "." (p ++ [k]), snd (add_parameter N k v))).
    now apply in_map.
  - intros Hnd. rewrite (_named_parameters_exact root' Hnd).
    now apply dict_get_of_In.
Qed.

Lemma add_parameter_below_is_enumerated_witness :
  at_path root_p_a ["a"] = Some child_a
  /\ call_at (fun m => fst (add_parameter m "q" (VInt 3))) ["a"] root_p_a
     = Some (mkModule
               [("a", mkModule []
                        [("p2", mkParameter (VInt 10) (Some "p2"));
                         ("q", mkParameter (VInt 3) (Some "q"))]
                        [("training", VBool true)])]
               [("p", mkParameter (VInt 5) (Some "p"))]
               [("training", VBool true)])
  /\ In "a.q"
       (keys (named_parameters
                (mkModule
                   [("a", mkModule []
                            [("p2", mkParameter (VInt 10) (Some "p2"));
                             ("q", mkParameter (VInt 3) (Some "q"))]
                            [("training", VBool true)])]
                   [("p", mkParameter (VInt 5) (Some "p"))]
                   [("training", VBool true)]))).
Proof.
  split; [reflexivity|]. split; [reflexivity|].
  exact (proj1 (add_parameter_below_is_enumerated root_p_a ["a"] child_a "q"
                  (VInt 3) _ eq_refl eq_refl)).
Defined.

(** ** Text: splitting and joining lines *)


Lemma string_app_nil_r (a : string) : (a ++ "")%string = a.
Proof. induction a as [|x a IH]; simpl; [reflexivity | now rewrite IH]. Qed.

Lemma contains_app (c : ascii) (a b : string) :
  contains c (a ++ b) = contains c a || contains c b.
Proof.
  induction a as [|x a IH]; simpl; [reflexivity|].
  now rewrite IH, orb_assoc.
Qed.

Lemma contains_spaces (n : nat) : contains nl_char (spaces n) = false.
Proof. induction n as [|n IH]; simpl; [reflexivity | exact IH]. Qed.

Lemma split_not_nil (c : ascii) (s : string) : split c s <> [].
Proof.
  destruct s as [|x s]; simpl; [discriminate|].
  destruct (Ascii.eqb x c); [discriminate|].
  destruct (split c s); discriminate.
Qed.

(** Joining the pieces of a split gives the text back. *)
Lemma concat_split (c : ascii) (s : string) :
  String.concat (String c "") (split c s) = s.
Proof.
  induction s as [|x s IH]; simpl; [reflexivity|].
  destruct (Ascii.eqb_spec x c) as [->|Hne].
  - destruct (split c s) as [|piece pieces] eqn:E.
    + now destruct (split_not_nil c s).
    + cbn [String.concat]. cbn [String.concat] in IH. now rewrite IH.
  - destruct (split c s) as [|piece pieces] eqn:E.
    + now destruct (split_not_nil c s).
    + destruct pieces as [|piece' pieces]; simpl in *; now rewrite IH.
Qed.

Lemma split_pieces (c : ascii) (s : string) :
  Forall (fun piece => contains c piece = false) (split c s).
Proof.
  induction s as [|x s IH]; simpl; [now repeat constructor|].
  destruct (Ascii.eqb x c) eqn:Ex; [now constructor|].
  destruct (split c s) as [|piece pieces]; [now repeat constructor; simpl; rewrite Ex|].
  inversion IH; subst. constructor; [|assumption].
  simpl. now rewrite Ex.
Qed.

Lemma split_one_piece (c : ascii) (s : string) :
  contains c s = false -> split c s = [s].
Proof.
  induction s as [|x s IH]; simpl; [reflexivity|].
  intros H. apply orb_false_elim in H as [Hx Hs].
  rewrite Hx, (IH Hs). reflexivity.
Qed.

Lemma split_app_sep (c : ascii) (a b : string) :
  split c (a ++ String c b) = split c a ++ split c b.
Proof.
  induction a as [|x a IH]; simpl.
  - now rewrite Ascii.eqb_refl.
  - rewrite IH. destruct (Ascii.eqb x c); [reflexivity|].
    destruct (split c a) as [|piece pieces] eqn:E; [|reflexivity].
    now destruct (split_not_nil c a).
Qed.


Lemma concat_two (c : ascii) (x y : string) (l : list string) :
  String.concat (String c "") (x :: y :: l)
  = (x ++ String c (String.concat (String c "") (y :: l)))%string.
Proof. reflexivity. Qed.

(** Splitting the join of pieces without separator gives the pieces back. *)
Lemma split_concat (c : ascii) (pieces : list string) :
  pieces <> [] ->
  Forall (fun piece => contains c piece = false) pieces ->
  split c (String.concat (String c "") pieces) = pieces.
Proof.
  induction pieces as [|piece pieces IH]; [congruence|].
  intros _ H. inversion H as [|? ? Hp Hps]; subst.
  destruct pieces as [|piece' pieces].
  - simpl. now apply split_one_piece.
  - rewrite concat_two, split_app_sep, (split_one_piece _ _ Hp), IH;
      [reflexivity | discriminate | assumption].
Qed.

(** ** Text representation of a module *)

(** The lines of an indented text. *)
Lemma addindent_split (s : string) (numSpaces : nat) :
  split nl_char (_addindent s numSpaces) =
    match split nl_char s with
    | first :: rest =>
        first :: map (fun line => (spaces numSpaces ++ line)%string) rest
    | [] => []
    end.
Proof.
  assert (Hpieces := split_pieces nl_char s).
  unfold _addindent.
  destruct (split nl_char s) as [|first rest] eqn:E.
  - now destruct (split_not_nil nl_char s).
  - inversion Hpieces as [|? ? Hfirst Hrest]; subst.
    destruct rest as [|line rest]; [simpl; now rewrite E|].
    cbn [length Nat.eqb].
    change (first ++ nl ++ ?t)%string with (first ++ String nl_char t)%string.
    rewrite split_app_sep, (split_one_piece _ _ Hfirst). cbn [app].
    f_equal. apply split_concat; [discriminate|].
    apply Forall_map. eapply Forall_impl; [|exact Hrest].
    intros l Hl. simpl. now rewrite contains_app, contains_spaces.
Qed.

(** [_addindent] keeps the first line and puts [numSpaces] spaces before
    every other line: the number of lines stays, a text of one line is
    returned as it is, and so is every text when [numSpaces] is zero. *)
Theorem addindent_lines (s : string) (numSpaces : nat) :
  text_lines (_addindent s numSpaces) =
    match text_lines s with
    | first :: rest =>
        first :: map (fun line => (spaces numSpaces ++ line)%string) rest
    | [] => []
    end
  /\ length (text_lines (_addindent s numSpaces)) = length (text_lines s)
  /\ (contains nl_char s = false -> _addindent s numSpaces = s)
  /\ _addindent s 0 = s.
Proof.
  assert (Hjoin := concat_split nl_char s).
  assert (Hmain := addindent_split s numSpaces).
  unfold text_lines.
  split; [exact Hmain|]. split; [|split].
  - rewrite Hmain. destruct (split nl_char s); simpl; [reflexivity|].
    now rewrite length_map.
  - intros H. unfold _addindent. now rewrite (split_one_piece _ _ H).
  - unfold _addindent.
    destruct (split nl_char s) as [|first rest] eqn:E; [now simpl|].
    destruct rest as [|line rest]; [reflexivity|].
    cbn [length Nat.eqb].
    rewrite (map_ext (fun l => (spaces 0 ++ l)%string) (fun l => l)) by reflexivity.
    rewrite map_id. exact Hjoin.
Qed.









(** ** Reading an attribute after an assignment *)

Lemma special_false (key : string) :
  special key = false ->
  String.eqb key "_modules" = false /\ String.eqb key "_parameters" = false.
Proof.
  unfold special, special_names. cbn [existsb]. intros H.
  apply orb_false_elim in H as [H1 H]. apply orb_false_elim in H as [H2 _].
  now split.
Qed.

(** Assign, then read the attribute: a plain value is read back, whatever
    parameter or child bears the name; a parameter or a module assigned to a
    name that the default lookup finds (a plain field, an attribute of the
    class) stays hidden, and the read yields what it yielded before; otherwise
    a parameter is read back, and a module is read back unless a parameter is
    registered under the name. *)
Theorem read_after_assignment (object_attr : string -> bool) (self : Module)
    (key : string) (val : Obj) (self' : Module) :
  special key = false ->
  __setattr__ self key val = Some self' ->
  getattr object_attr self' key =
    match val with
    | OValue v => Ok (AObj (OValue v))
    | OParameter p =>
        if found_by_default object_attr self key
        then getattr object_attr self key
        else Ok (AObj (OParameter p))
    | OModule c =>
        if found_by_default object_attr self key
        then getattr object_attr self key
        else
          match dict_get key (_parameters self) with
          | Some p => Ok (AObj (OParameter p))
          | None => Ok (AObj (OModule c))
          end
    end.
Proof.
  intros Hs. destruct (special_false key Hs) as [Hm Hp].
  unfold getattr, found_by_default, dict_mem, __getattr__.
  rewrite Hm, Hp, Hs. destruct val as [v|p|c]; simpl; rewrite ?Hs.
  - intros [= <-]. simpl. now rewrite dict_get_set_eq.
  - intros [= <-]. simpl.
    destruct (dict_get key (fields self)); [reflexivity|]. simpl.
    destruct (class_attr object_attr key); [reflexivity|].
    now rewrite dict_get_set_eq.
  - intros [= <-]. simpl.
    destruct (dict_get key (fields self)); [reflexivity|]. simpl.
    destruct (class_attr object_attr key); [reflexivity|].
    rewrite dict_get_set_eq. now destruct (dict_get key (_parameters self)).
Qed.

Lemma read_after_assignment_witness :
  special "training" = false
  /\ __setattr__ Module_init "training" (OParameter one)
     = Some (mkModule [] [("training", one)] [("training", VBool true)])
  /\ getattr cpython_attr
       (mkModule [] [("training", one)] [("training", VBool true)]) "training"
     = Ok (AObj (OValue (VBool true))).
Proof.
  split; [reflexivity|]. split; [reflexivity|].
  exact (read_after_assignment cpython_attr Module_init "training"
           (OParameter one) _ eq_refl eq_refl).
Defined.
